(** * The UDP header view of pkg/tcpip/header/udp.go

    A shallow embedding of the Go file [pkg/tcpip/header/udp.go] and of the
    small part of the Go runtime it leans on (byte slices over a shared
    backing store, bounds-checked indexing, [encoding/binary]'s big-endian
    helpers), followed by the properties of the header view. *)

From Stdlib Require Import ZArith Lia.
From Stdlib Require Import Strings.Byte.
From stdpp Require Import base numbers list.

Local Open Scope Z_scope.

(** ** Machine integers and bytes *)

(** Conversion of an integer to Go's [uint16]: the low 16 bits. *)
Definition u16 (z : Z) : Z := z mod 65536.

(** Conversion [uint16(x)] of a byte [x]. *)
Definition Z_of_byte (x : byte) : Z := Z.of_N (Byte.to_N x).

(** Conversion [byte(v)] of an integer [v]: the low 8 bits. *)
Definition byte_of_Z (v : Z) : byte :=
  match Byte.of_N (Z.to_N (v mod 256)) with
  | Some x => x
  | None => x00
  end.

(** ** Go slices over a backing store *)

(** The store holds the bytes of every backing array; a slice is a window
    [base, base+len) on it that may be re-sliced up to [base+cap). *)
Abbreviation mem := (list byte).

Record slice := Slice { base : nat; len : nat; cap : nat }.

(** The slice lies inside the store. *)
Definition valid (h : mem) (s : slice) : Prop :=
  (len s <= cap s)%nat /\ (base s + cap s <= length h)%nat.

(** The byte of the store at an absolute address. *)
Definition peek (h : mem) (a : nat) : byte := default x00 (h !! a).

(** The bytes a slice shows: [len s] bytes from [base s]. *)
Definition contents (h : mem) (s : slice) : list byte :=
  take (len s) (drop (base s) h).

(** Run-time panics of the bounds checks. *)
Inductive boundsError :=
| IndexOutOfRange (i length : nat)
| SliceBoundsOutOfRange (lo hi : nat)
| SliceCapOutOfRange (hi capacity : nat).

(** A Go computation over the store: it returns a value or panics, and in
    both cases leaves a store behind (writes made before a panic stay). *)
Inductive outcome (A : Type) :=
| Ret (a : A) (h : mem)
| Panic (e : boundsError) (h : mem).
Arguments Ret {A} a h.
Arguments Panic {A} e h.

Definition M (A : Type) := mem -> outcome A.

Definition ret {A} (a : A) : M A := fun h => Ret a h.
Definition panic {A} (e : boundsError) : M A := fun h => Panic e h.
Definition bind {A B} (c : M A) (k : A -> M B) : M B :=
  fun h => match c h with
           | Ret a h' => k a h'
           | Panic e h' => Panic e h'
           end.

Notation "'do' x <- c ; k" := (bind c (fun x => k))
  (at level 10, x name, c at level 100, k at level 200,
   format "'[v' 'do'  x  <-  c ; '/' k ']'").
Notation "'run' c ; k" := (bind c (fun _ => k))
  (at level 10, c at level 100, k at level 200,
   format "'[v' 'run'  c ; '/' k ']'").

Definition panics {A} (o : outcome A) : bool :=
  match o with Ret _ _ => false | Panic _ _ => true end.

(** [s[lo:]] *)
Definition slice_from (s : slice) (lo : nat) : M slice :=
  if (lo <=? len s)%nat
  then ret (Slice (base s + lo) (len s - lo) (cap s - lo))
  else panic (SliceBoundsOutOfRange lo (len s)).

(** [s[:hi]]: the upper bound of a re-slice is the capacity. *)
Definition slice_to (s : slice) (hi : nat) : M slice :=
  if (hi <=? cap s)%nat
  then ret (Slice (base s) hi (cap s))
  else panic (SliceCapOutOfRange hi (cap s)).

(** [s[i]] as a value. *)
Definition index (s : slice) (i : nat) : M byte :=
  fun h => if (i <? len s)%nat
           then Ret (peek h (base s + i)) h
           else Panic (IndexOutOfRange i (len s)) h.

(** [s[i] = x] *)
Definition store (s : slice) (i : nat) (x : byte) : M unit :=
  fun h => if (i <? len s)%nat
           then Ret tt (<[(base s + i)%nat := x]> h)
           else Panic (IndexOutOfRange i (len s)) h.

(** ** encoding/binary, big endian *)

Module binary.

(** [_ = b[1]; return uint16(b[1]) | uint16(b[0])<<8] *)
Definition Uint16 (b : slice) : M Z :=
  run index b 1;
  do b1 <- index b 1;
  do b0 <- index b 0;
  ret (Z.lor (Z_of_byte b1) (u16 (Z.shiftl (Z_of_byte b0) 8))).

(** [_ = b[1]; b[0] = byte(v >> 8); b[1] = byte(v)] *)
Definition PutUint16 (b : slice) (v : Z) : M unit :=
  run index b 1;
  run store b 0 (byte_of_Z (Z.shiftr v 8));
  store b 1 (byte_of_Z v).

End binary.

(** ** Collaborators of the header view that live in other files *)

(** Modelled from the spec: the buffer package is not part of the sources at
    hand.  The payload source is "an ordered sequence of byte spans
    representing a (possibly scatter-gathered) payload"; its [Views] method
    hands the spans out in that order. *)
Record VectorisedView := { views : list slice; size : Z }.

Definition Views (vv : VectorisedView) : list slice := views vv.

(** Modelled from the spec: the Internet checksum primitive of checksum.go,
    which is not part of the sources at hand: "one's-complement 16-bit
    running sum with end-around carry", "composable via the seed parameter
    across multiple calls/spans".  [sum16] adds the big-endian 16-bit words
    of the span (an odd last byte is the high half of a word), [fold16]
    brings the carries back in.  It serves to run the header view on
    concrete packets; the general results below hold for any primitive. *)
Fixpoint sum16 (buf : list byte) (acc : Z) : Z :=
  match buf with
  | b0 :: b1 :: rest =>
      sum16 rest (acc + Z.shiftl (Z_of_byte b0) 8 + Z_of_byte b1)
  | [b0] => acc + Z.shiftl (Z_of_byte b0) 8
  | [] => acc
  end.

Definition fold16 (v : Z) : Z :=
  let v1 := Z.land v 65535 + Z.shiftr v 16 in
  Z.land (v1 + Z.shiftr v1 16) 65535.

Definition InternetChecksum (buf : list byte) (initial : Z) : Z :=
  fold16 (sum16 buf initial).

(** Modelled from the spec: the pseudo-header seed of checksum.go, which is
    not part of the sources at hand: "produces the seed checksum
    contribution from the enclosing network-layer addresses, the transport
    protocol number (17 for UDP), and the UDP length field".  Addresses are
    byte strings. *)
Definition InternetPseudoHeader
    (protocol : Z) (srcAddr dstAddr : list byte) (totalLen : Z) : Z :=
  let xsum := InternetChecksum srcAddr 0 in
  let xsum := InternetChecksum dstAddr xsum in
  let xsum := InternetChecksum
                [byte_of_Z (Z.shiftr totalLen 8); byte_of_Z totalLen] xsum in
  InternetChecksum [x00; byte_of_Z protocol] xsum.

(** ** pkg/tcpip/header/udp.go *)

Definition udpSrcPort : nat := 0.
Definition udpDstPort : nat := 2.
Definition udpLength : nat := 4.
Definition udpChecksum : nat := 6.

Definition UDPMaximumPacketSize : Z := 65535.

Record UDPFields := {
  SrcPort : Z;
  DstPort : Z;
  Length : Z;
  Checksum : Z
}.

(** [type UDP []byte] *)
Definition UDP := slice.

Definition UDPMinimumSize : nat := 8.
Definition UDPMaximumSize : Z := 65535.
Definition UDPProtocolNumber : Z := 17.

Definition UDP_SourcePort (b : UDP) : M Z :=
  do s <- slice_from b udpSrcPort;
  binary.Uint16 s.

Definition UDP_DestinationPort (b : UDP) : M Z :=
  do s <- slice_from b udpDstPort;
  binary.Uint16 s.

Definition UDP_Length (b : UDP) : M Z :=
  do s <- slice_from b udpLength;
  binary.Uint16 s.

Definition UDP_Payload (b : UDP) : M slice :=
  slice_from b UDPMinimumSize.

Definition UDP_Checksum (b : UDP) : M Z :=
  do s <- slice_from b udpChecksum;
  binary.Uint16 s.

Definition UDP_SetSourcePort (b : UDP) (port : Z) : M unit :=
  do s <- slice_from b udpSrcPort;
  binary.PutUint16 s port.

Definition UDP_SetDestinationPort (b : UDP) (port : Z) : M unit :=
  do s <- slice_from b udpDstPort;
  binary.PutUint16 s port.

Definition UDP_SetChecksum (b : UDP) (checksum : Z) : M unit :=
  do s <- slice_from b udpChecksum;
  binary.PutUint16 s checksum.

Definition UDP_SetLength (b : UDP) (length : Z) : M unit :=
  do s <- slice_from b udpLength;
  binary.PutUint16 s length.

Definition UDP_Encode (b : UDP) (u : UDPFields) : M unit :=
  do s <- slice_from b udpSrcPort;
  run binary.PutUint16 s (SrcPort u);
  do s <- slice_from b udpDstPort;
  run binary.PutUint16 s (DstPort u);
  do s <- slice_from b udpLength;
  run binary.PutUint16 s (Length u);
  do s <- slice_from b udpChecksum;
  binary.PutUint16 s (Checksum u).

(** The four single-field mutators one after the other, in the order the
    description of [Encode] lists them. *)
Definition four_mutators (b : UDP) (u : UDPFields) : M unit :=
  run UDP_SetSourcePort b (SrcPort u);
  run UDP_SetDestinationPort b (DstPort u);
  run UDP_SetLength b (Length u);
  UDP_SetChecksum b (Checksum u).

Section Checksumming.

(** The checksum routines of checksum.go, the address type of package tcpip
    and the identifiers of the network protocols are declared outside
    udp.go; the header view is embedded over any of them. *)
Variable Address : Type.
Variable header_Checksum : list byte -> Z -> Z.
Variable PseudoHeaderChecksum : Z -> Address -> Address -> Z -> Z.
Variable IPv4ProtocolNumber IPv6ProtocolNumber : Z.

(** [Checksum(buf, initial)] on a slice: the routine is given the bytes the
    slice shows. *)
Definition Checksum_of (buf : slice) (initial : Z) : M Z :=
  fun h => Ret (header_Checksum (contents h buf) initial) h.

Definition UDP_CalculateChecksum (b : UDP) (partialChecksum : Z) : M Z :=
  do s <- slice_to b UDPMinimumSize;
  Checksum_of s partialChecksum.

(** [for _, v := range vs { xsum = Checksum(v, xsum) }] *)
Fixpoint range_views (vs : list slice) (xsum : Z) : M Z :=
  match vs with
  | [] => ret xsum
  | v :: vs' =>
      do xsum' <- Checksum_of v xsum;
      range_views vs' xsum'
  end.

Definition UDP_IsChecksumValid
    (b : UDP) (src dst : Address) (netProto : Z) (data : VectorisedView)
  : M bool :=
  do c <- UDP_Checksum b;
  if (c =? 0) && (netProto =? IPv4ProtocolNumber) then ret true else
  do l <- UDP_Length b;
  do xsum <- ret (PseudoHeaderChecksum UDPProtocolNumber dst src l);
  do xsum <- range_views (Views data) xsum;
  do r <- UDP_CalculateChecksum b xsum;
  ret (r =? 65535).

(** ** Vocabulary of the statements *)

(** The value of two bytes read most-significant byte first. *)
Definition be16 (hi lo : byte) : Z := 256 * Z_of_byte hi + Z_of_byte lo.

(** The 16-bit value [v] sits at address [a] most-significant byte first. *)
Definition stored_be (h : mem) (a : nat) (v : Z) : Prop :=
  Z_of_byte (peek h a) = v / 256 /\ Z_of_byte (peek h (a + 1)) = v mod 256.

(** The 16-bit field stored at offset [off] of a view. *)
Definition stored_field (h : mem) (b : UDP) (off : nat) : Z :=
  be16 (peek h (base b + off)) (peek h (base b + off + 1)).

(** The eight header bytes of a view, one address at a time. *)
Definition header_bytes (h : mem) (b : UDP) : list byte :=
  map (fun i => peek h (base b + i)) (seq 0 8).

(** The validity computation in the words of the description: the
    pseudo-header seed from (17, dst, src, Length field), then every payload
    span in sequence order, then the eight header bytes. *)
Definition spec_full_checksum
    (h : mem) (b : UDP) (src dst : Address) (data : VectorisedView) : Z :=
  let seed := PseudoHeaderChecksum 17 dst src (stored_field h b udpLength) in
  let after_payload :=
    fold_left (fun acc v => header_Checksum (contents h v) acc)
              (views data) seed in
  header_Checksum (header_bytes h b) after_payload.

(** The shape the four accessors share: [binary.BigEndian.Uint16(b[off:])]. *)
Definition field_get (b : UDP) (off : nat) : M Z :=
  do s <- slice_from b off;
  binary.Uint16 s.

(** The shape the four mutators share:
    [binary.BigEndian.PutUint16(b[off:], v)]. *)
Definition field_put (b : UDP) (off : nat) (v : Z) : M unit :=
  do s <- slice_from b off;
  binary.PutUint16 s v.

(** The store after the two byte writes of [PutUint16] at address [a]. *)
Definition put16 (h : mem) (a : nat) (v : Z) : mem :=
  <[(a + 1)%nat := byte_of_Z v]> (<[a := byte_of_Z (Z.shiftr v 8)]> h).

(** The bounds error a field access at [off] runs into on a region of [n]
    bytes with [n < off + 2]: the index check of [encoding/binary] when
    [b[off:]] exists, the slice check otherwise. *)
Definition field_error (off n : nat) : boundsError :=
  if (off <=? n)%nat then IndexOutOfRange 1 (n - off)
  else SliceBoundsOutOfRange off n.

(** The store after the four field writes of [Encode]. *)
Definition encoded (h : mem) (b : UDP) (u : UDPFields) : mem :=
  put16
    (put16
       (put16
          (put16 h (base b + udpSrcPort) (SrcPort u))
          (base b + udpDstPort) (DstPort u))
       (base b + udpLength) (Length u))
    (base b + udpChecksum) (Checksum u).

(** All four fields of [u] fit 16 bits. *)
Definition fields_in_range (u : UDPFields) : Prop :=
  0 <= SrcPort u <= 65535 /\ 0 <= DstPort u <= 65535 /\
  0 <= Length u <= 65535 /\ 0 <= Checksum u <= 65535.

(** Two stores agree everywhere except on the two bytes from address [a]. *)
Definition same_outside (a : nat) (h h' : mem) : Prop :=
  length h' = length h /\
  forall i : nat, i <> a -> i <> (a + 1)%nat -> h' !! i = h !! i.

(** What an accessor of the field at [off] does on any region: the stored
    value when both bytes of the field are inside, a bounds panic if not. *)
Definition accessor_outcome (h : mem) (b : UDP) (off : nat) : outcome Z :=
  if (off + 2 <=? len b)%nat
  then Ret (stored_field h b off) h
  else Panic (field_error off (len b)) h.

(** ** Concrete packets *)

(** The header of the description's concrete vector (SrcPort = 53,
    DstPort = 1234, Length = 16, Checksum = 0) behind four bytes of another
    object and in front of eight payload bytes. *)
Definition dns_store : mem :=
  [xde; xad; xbe; xef;
   x00; x35; x04; xd2; x00; x10; x00; x00;
   x01; x02; x03; x04; x05; x06; x07; x08].

Definition dns_view : UDP := Slice 4 16 16.

(** The payload of [dns_view] handed over as two spans. *)
Definition dns_payload : VectorisedView :=
  {| views := [Slice 12 4 8; Slice 16 4 4]; size := 8 |}.

(** The same datagram with the checksum of the reference routines stored in
    the header (0xD6B0 for the two addresses below). *)
Definition sealed_store : mem :=
  [xde; xad; xbe; xef;
   x00; x35; x04; xd2; x00; x10; xd6; xb0;
   x01; x02; x03; x04; x05; x06; x07; x08].

(** The numbers ipv4.go and ipv6.go give the two network protocols. *)
Definition ref_IPv4ProtocolNumber : Z := 2048.
Definition ref_IPv6ProtocolNumber : Z := 34525.

Definition addr_a : list byte := [x0a; x00; x00; x01].
Definition addr_b : list byte := [x0a; x00; x00; x02].

(** An undersized region: the first seven bytes of the same header. *)
Definition short_store : mem := [x00; x35; x04; xd2; x00; x10; x00].

Definition short_view : UDP := Slice 0 7 7.

Definition example_fields : UDPFields :=
  {| SrcPort := 4660; DstPort := 53; Length := 16; Checksum := 48879 |}.

(** ** Vocabulary of the further properties *)

(** The four accessors and the four mutators, each with the offset of its
    field. *)
Definition accessors : list (nat * (UDP -> M Z)) :=
  [(udpSrcPort, UDP_SourcePort); (udpDstPort, UDP_DestinationPort);
   (udpLength, UDP_Length); (udpChecksum, UDP_Checksum)].

Definition mutators : list (nat * (UDP -> Z -> M unit)) :=
  [(udpSrcPort, UDP_SetSourcePort); (udpDstPort, UDP_SetDestinationPort);
   (udpLength, UDP_SetLength); (udpChecksum, UDP_SetChecksum)].

(** What a mutator of the field at [off] does on any region: both bytes
    written when the field is inside, a bounds panic and no write if not. *)
Definition mutator_outcome (h : mem) (b : UDP) (off : nat) (v : Z)
  : outcome unit :=
  if (off + 2 <=? len b)%nat
  then Ret tt (put16 h (base b + off) v)
  else Panic (field_error off (len b)) h.

(** The store a computation leaves, however it ended. *)
Definition store_after {A} (o : outcome A) : mem :=
  match o with Ret _ h => h | Panic _ h => h end.

(** A returned value is a 16-bit value. *)
Definition fits_u16 (o : outcome Z) : Prop :=
  match o with Ret v _ => 0 <= v <= 65535 | Panic _ _ => True end.

(** The four fields as the header of a view holds them. *)
Definition stored_fields (h : mem) (b : UDP) : UDPFields :=
  {| SrcPort := stored_field h b udpSrcPort;
     DstPort := stored_field h b udpDstPort;
     Length := stored_field h b udpLength;
     Checksum := stored_field h b udpChecksum |}.

(** The store after the first [k] field writes of [Encode]. *)
Definition encode_prefix (h : mem) (b : UDP) (u : UDPFields) (k : nat) : mem :=
  match k with
  | 0%nat => h
  | 1%nat => put16 h (base b + udpSrcPort) (SrcPort u)
  | 2%nat =>
      put16 (put16 h (base b + udpSrcPort) (SrcPort u))
        (base b + udpDstPort) (DstPort u)
  | 3%nat =>
      put16
        (put16 (put16 h (base b + udpSrcPort) (SrcPort u))
           (base b + udpDstPort) (DstPort u))
        (base b + udpLength) (Length u)
  | _ => encoded h b u
  end.

(** The slice [Payload] hands out for a view of at least 8 bytes. *)
Definition payload_of (b : UDP) : slice :=
  Slice (base b + 8) (len b - 8) (cap b - 8).

(** Two stores agree everywhere outside the 8 header bytes of a view. *)
Definition same_outside_header (b : UDP) (h h' : mem) : Prop :=
  length h' = length h /\
  forall i : nat, (i < base b \/ base b + 8 <= i)%nat -> h' !! i = h !! i.

(** Two stores show the same 8 header bytes of a view. *)
Definition same_header (b : UDP) (h h' : mem) : Prop :=
  forall i : nat, (i < 8)%nat -> peek h' (base b + i) = peek h (base b + i).

(** The fields of the header in [dns_store]. *)
Definition dns_fields : UDPFields :=
  {| SrcPort := 53; DstPort := 1234; Length := 16; Checksum := 0 |}.

(** The datagram of [dns_store] behind four other bytes. *)
Definition dns_store_other_prefix : mem :=
  [x00; x00; x00; x00;
   x00; x35; x04; xd2; x00; x10; x00; x00;
   x01; x02; x03; x04; x05; x06; x07; x08].

(** A seven-byte view on an eight-byte backing array. *)
Definition roomy_store : mem := [x00; x35; x04; xd2; x00; x10; x00; xff].

Definition roomy_view : UDP := Slice 0 7 8.

(** ** Bytes and 16-bit words *)

Lemma Z_of_byte_range (x : byte) : 0 <= Z_of_byte x < 256.
Proof.
  unfold Z_of_byte. pose proof (Byte.to_N_bounded x) as Hx.
  split; [apply N2Z.is_nonneg|]. lia.
Qed.

Lemma Z_of_byte_of_Z (v : Z) : Z_of_byte (byte_of_Z v) = v mod 256.
Proof.
  unfold Z_of_byte, byte_of_Z.
  assert (Hm : 0 <= v mod 256 < 256) by (apply Z.mod_pos_bound; lia).
  destruct (Byte.of_N (Z.to_N (v mod 256))) as [x|] eqn:E.
  - apply Byte.to_of_N in E. rewrite E. apply Z2N.id. lia.
  - apply Byte.of_N_None_iff in E. lia.
Qed.

Lemma lor_shift_bytes (lo hi : Z) :
  0 <= lo < 256 -> 0 <= hi < 256 ->
  Z.lor lo (u16 (Z.shiftl hi 8)) = 256 * hi + lo.
Proof.
  intros Hlo Hhi. unfold u16.
  rewrite Z.shiftl_mul_pow2 by lia.
  change (2 ^ 8) with 256.
  rewrite (Z.mod_small (hi * 256)) by lia.
  assert (Hd : Z.land lo (hi * 256) = 0).
  { apply Z.bits_inj'. intros n Hn.
    rewrite Z.land_spec, Z.bits_0.
    destruct (Z.lt_ge_cases n 8) as [Hlt|Hge].
    - change 256 with (2 ^ 8). rewrite Z.mul_pow2_bits_low by lia.
      apply andb_false_r.
    - rewrite <- (Z.mod_small lo (2 ^ 8)) by (change (2 ^ 8) with 256; lia).
      rewrite Z.mod_pow2_bits_high by lia. reflexivity. }
  rewrite <- Z.lxor_lor by exact Hd.
  rewrite <- Z.add_nocarry_lxor by exact Hd. lia.
Qed.

Lemma Uint16_value (hi lo : byte) :
  Z.lor (Z_of_byte lo) (u16 (Z.shiftl (Z_of_byte hi) 8)) = be16 hi lo.
Proof. apply lor_shift_bytes; apply Z_of_byte_range. Qed.

Lemma be16_range (hi lo : byte) : 0 <= be16 hi lo < 65536.
Proof.
  unfold be16. pose proof (Z_of_byte_range hi). pose proof (Z_of_byte_range lo).
  lia.
Qed.

Lemma shiftr8_byte (v : Z) :
  0 <= v < 65536 -> Z_of_byte (byte_of_Z (Z.shiftr v 8)) = v / 256.
Proof.
  intros Hv. rewrite Z_of_byte_of_Z, Z.shiftr_div_pow2 by lia.
  change (2 ^ 8) with 256. apply Z.mod_small.
  split; [apply Z.div_pos; lia | apply Z.div_lt_upper_bound; lia].
Qed.

Lemma be16_put (v : Z) :
  0 <= v < 65536 -> be16 (byte_of_Z (Z.shiftr v 8)) (byte_of_Z v) = v.
Proof.
  intros Hv. unfold be16. rewrite shiftr8_byte, Z_of_byte_of_Z by exact Hv.
  pose proof (Z.div_mod v 256). lia.
Qed.

(** ** The store *)

Lemma peek_insert_eq (h : mem) (a : nat) (x : byte) :
  (a < length h)%nat -> peek (<[a := x]> h) a = x.
Proof. intros Ha. unfold peek. now rewrite list_lookup_insert_eq. Qed.

Lemma peek_insert_ne (h : mem) (a a' : nat) (x : byte) :
  a <> a' -> peek (<[a := x]> h) a' = peek h a'.
Proof. intros Ha. unfold peek. now rewrite list_lookup_insert_ne. Qed.

Lemma put16_length (h : mem) (a : nat) (v : Z) :
  length (put16 h a v) = length h.
Proof. unfold put16. now rewrite !length_insert. Qed.

Lemma put16_lookup_other (h : mem) (a i : nat) (v : Z) :
  i <> a -> i <> (a + 1)%nat -> put16 h a v !! i = h !! i.
Proof.
  intros H0 H1. unfold put16.
  rewrite !list_lookup_insert_ne; [reflexivity | congruence | congruence].
Qed.

Lemma put16_peek_other (h : mem) (a i : nat) (v : Z) :
  i <> a -> i <> (a + 1)%nat -> peek (put16 h a v) i = peek h i.
Proof. intros H0 H1. unfold peek. now rewrite put16_lookup_other. Qed.

Lemma put16_peek_hi (h : mem) (a : nat) (v : Z) :
  (a + 1 < length h)%nat -> peek (put16 h a v) a = byte_of_Z (Z.shiftr v 8).
Proof.
  intros Ha. unfold put16.
  rewrite peek_insert_ne by lia. apply peek_insert_eq. lia.
Qed.

Lemma put16_peek_lo (h : mem) (a : nat) (v : Z) :
  (a + 1 < length h)%nat -> peek (put16 h a v) (a + 1) = byte_of_Z v.
Proof.
  intros Ha. unfold put16. apply peek_insert_eq. rewrite length_insert. lia.
Qed.

Lemma put16_same_outside (h : mem) (a : nat) (v : Z) :
  same_outside a h (put16 h a v).
Proof.
  split; [apply put16_length|]. intros i H0 H1. now apply put16_lookup_other.
Qed.

Lemma put16_be16 (h : mem) (a : nat) (v : Z) :
  (a + 1 < length h)%nat -> 0 <= v < 65536 ->
  be16 (peek (put16 h a v) a) (peek (put16 h a v) (a + 1)) = v.
Proof.
  intros Ha Hv. rewrite put16_peek_hi, put16_peek_lo by exact Ha.
  now apply be16_put.
Qed.

Lemma put16_stored_be (h : mem) (a : nat) (v : Z) :
  (a + 1 < length h)%nat -> 0 <= v < 65536 -> stored_be (put16 h a v) a v.
Proof.
  intros Ha Hv. unfold stored_be.
  rewrite put16_peek_hi, put16_peek_lo by exact Ha.
  split; [now apply shiftr8_byte | apply Z_of_byte_of_Z].
Qed.

(** ** Field access through a slice *)

Lemma field_get_ok (b : UDP) (off : nat) (h : mem) :
  (off + 2 <= len b)%nat ->
  field_get b off h
  = Ret (be16 (peek h (base b + off)) (peek h (base b + off + 1))) h.
Proof.
  intros Hlen. unfold field_get, slice_from, bind.
  destruct (Nat.leb_spec off (len b)) as [_|Hbad]; [|lia].
  unfold ret, binary.Uint16, bind, index. simpl.
  destruct (Nat.ltb_spec 1 (len b - off)) as [_|Hbad]; [|lia].
  destruct (Nat.ltb_spec 0 (len b - off)) as [_|Hbad]; [|lia].
  rewrite Uint16_value, Nat.add_0_r. reflexivity.
Qed.

Lemma field_get_short (b : UDP) (off : nat) (h : mem) :
  (len b < off + 2)%nat ->
  field_get b off h = Panic (field_error off (len b)) h.
Proof.
  intros Hlen. unfold field_get, field_error, slice_from, bind.
  destruct (Nat.leb_spec off (len b)) as [Hle|Hgt]; [|reflexivity].
  unfold ret, binary.Uint16, bind, index. simpl.
  destruct (Nat.ltb_spec 1 (len b - off)) as [Hbad|_]; [lia|reflexivity].
Qed.

Lemma field_put_ok (b : UDP) (off : nat) (v : Z) (h : mem) :
  (off + 2 <= len b)%nat ->
  field_put b off v h = Ret tt (put16 h (base b + off) v).
Proof.
  intros Hlen. unfold field_put, slice_from, bind.
  destruct (Nat.leb_spec off (len b)) as [_|Hbad]; [|lia].
  unfold ret, binary.PutUint16, bind, index, store. simpl.
  destruct (Nat.ltb_spec 1 (len b - off)) as [_|Hbad]; [|lia].
  destruct (Nat.ltb_spec 0 (len b - off)) as [_|Hbad]; [|lia].
  unfold put16. rewrite Nat.add_0_r. reflexivity.
Qed.

Lemma field_put_short (b : UDP) (off : nat) (v : Z) (h : mem) :
  (len b < off + 2)%nat ->
  field_put b off v h = Panic (field_error off (len b)) h.
Proof.
  intros Hlen. unfold field_put, field_error, slice_from, bind.
  destruct (Nat.leb_spec off (len b)) as [Hle|Hgt]; [|reflexivity].
  unfold ret, binary.PutUint16, bind, index. simpl.
  destruct (Nat.ltb_spec 1 (len b - off)) as [Hbad|_]; [lia|reflexivity].
Qed.

Lemma accessors_ok (b : UDP) (h : mem) :
  (8 <= len b)%nat ->
  UDP_SourcePort b h = Ret (stored_field h b udpSrcPort) h /\
  UDP_DestinationPort b h = Ret (stored_field h b udpDstPort) h /\
  UDP_Length b h = Ret (stored_field h b udpLength) h /\
  UDP_Checksum b h = Ret (stored_field h b udpChecksum) h.
Proof.
  intros Hlen. repeat split; apply field_get_ok; cbn; lia.
Qed.

(** ** The checksum operations *)

Lemma header_bytes_contents (b : UDP) (h : mem) :
  (base b + 8 <= length h)%nat ->
  contents h (Slice (base b) 8 (cap b)) = header_bytes h b.
Proof.
  intros Hh. unfold contents, header_bytes. cbn [len base].
  apply list_eq. intros i.
  destruct (Nat.lt_ge_cases i 8) as [Hi|Hi].
  - rewrite lookup_take_lt, lookup_drop by exact Hi.
    rewrite list_lookup_fmap, lookup_seq_lt by exact Hi. cbn.
    unfold peek.
    destruct (lookup_lt_is_Some_2 h (base b + i)) as [x ->]; [lia|reflexivity].
  - rewrite lookup_take_ge by exact Hi.
    rewrite list_lookup_fmap, lookup_seq_ge by exact Hi. reflexivity.
Qed.

Lemma header_bytes_ext (b : UDP) (h h' : mem) :
  (forall i : nat, (i < 8)%nat -> peek h' (base b + i) = peek h (base b + i)) ->
  header_bytes h' b = header_bytes h b.
Proof.
  intros Hsame. unfold header_bytes. apply map_ext_in.
  intros i Hi. apply Hsame. apply in_seq in Hi. lia.
Qed.

Lemma CalculateChecksum_ok (b : UDP) (p : Z) (h : mem) :
  valid h b -> (8 <= len b)%nat ->
  UDP_CalculateChecksum b p h = Ret (header_Checksum (header_bytes h b) p) h.
Proof.
  intros [Hcap Hin] Hlen. unfold UDP_CalculateChecksum, slice_to, bind.
  change UDPMinimumSize with 8%nat.
  destruct (Nat.leb_spec 8 (cap b)) as [_|Hbad]; [|lia].
  unfold ret, Checksum_of. rewrite header_bytes_contents by lia. reflexivity.
Qed.

Lemma range_views_fold (vs : list slice) (xsum : Z) (h : mem) :
  range_views vs xsum h
  = Ret (fold_left (fun acc v => header_Checksum (contents h v) acc) vs xsum) h.
Proof.
  revert xsum. induction vs as [|v vs IH]; intros xsum; [reflexivity|].
  cbn [range_views fold_left]. unfold bind, Checksum_of. apply IH.
Qed.

Lemma IsChecksumValid_ok
    (b : UDP) (src dst : Address) (netProto : Z) (data : VectorisedView)
    (h : mem) :
  valid h b -> (8 <= len b)%nat ->
  UDP_IsChecksumValid b src dst netProto data h
  = Ret (if (stored_field h b udpChecksum =? 0)
            && (netProto =? IPv4ProtocolNumber)
         then true
         else spec_full_checksum h b src dst data =? 65535) h.
Proof.
  intros Hv Hlen. unfold UDP_IsChecksumValid.
  destruct (accessors_ok b h Hlen) as (_ & _ & HL & HC).
  unfold bind at 1. rewrite HC.
  destruct ((stored_field h b udpChecksum =? 0)
            && (netProto =? IPv4ProtocolNumber)); [reflexivity|].
  unfold bind at 1. rewrite HL.
  unfold bind at 1. unfold ret at 1.
  unfold bind at 1. rewrite range_views_fold.
  unfold bind. rewrite CalculateChecksum_ok by assumption.
  reflexivity.
Qed.

(** ** IsChecksumValid and CalculateChecksum *)

(** C1. On a region of at least 8 bytes whose stored Checksum field is 0,
    [IsChecksumValid] with the IPv4 protocol number returns [true] and leaves
    the store alone, whatever the payload spans, the addresses and the
    checksum routines are: the routines have no part in the result. *)
Theorem IsChecksumValid_ipv4_zero_bypass
    (b : UDP) (src dst : Address) (data : VectorisedView) (h : mem) :
  (8 <= len b)%nat ->
  stored_field h b udpChecksum = 0 ->
  UDP_IsChecksumValid b src dst IPv4ProtocolNumber data h = Ret true h.
Proof.
  intros Hlen Hzero. unfold UDP_IsChecksumValid, bind.
  destruct (accessors_ok b h Hlen) as (_ & _ & _ & ->).
  rewrite Hzero, !Z.eqb_refl. reflexivity.
Qed.

(** C2. When the bypass does not apply (stored checksum nonzero, or the
    protocol is not IPv4), [IsChecksumValid] returns [true] exactly when the
    accumulation of the pseudo-header seed of (17, dst, src, Length field),
    then the payload spans in sequence order, then the 8 header bytes, equals
    0xFFFF. *)
Theorem IsChecksumValid_full_computation
    (b : UDP) (src dst : Address) (netProto : Z) (data : VectorisedView)
    (h : mem) :
  valid h b -> (8 <= len b)%nat ->
  stored_field h b udpChecksum <> 0 \/ netProto <> IPv4ProtocolNumber ->
  exists r : bool,
    UDP_IsChecksumValid b src dst netProto data h = Ret r h /\
    (r = true <-> spec_full_checksum h b src dst data = 65535).
Proof.
  intros Hv Hlen Hno.
  exists (spec_full_checksum h b src dst data =? 65535). split.
  - rewrite IsChecksumValid_ok by assumption.
    destruct Hno as [Hc|Hp].
    + apply Z.eqb_neq in Hc. rewrite Hc. reflexivity.
    + apply Z.eqb_neq in Hp. rewrite Hp, andb_false_r. reflexivity.
  - apply Z.eqb_eq.
Qed.

(** C3. With a stored Checksum field of 0 and the IPv6 protocol number (a
    number other than IPv4's), the result of [IsChecksumValid] is the result
    of the full pseudo-header, payload and header computation: zero gets no
    special treatment. *)
Theorem IsChecksumValid_ipv6_zero_not_bypassed
    (b : UDP) (src dst : Address) (data : VectorisedView) (h : mem) :
  IPv6ProtocolNumber <> IPv4ProtocolNumber ->
  valid h b -> (8 <= len b)%nat ->
  stored_field h b udpChecksum = 0 ->
  UDP_IsChecksumValid b src dst IPv6ProtocolNumber data h
  = Ret (spec_full_checksum h b src dst data =? 65535) h.
Proof.
  intros Hneq Hv Hlen Hzero.
  rewrite IsChecksumValid_ok by assumption.
  apply Z.eqb_neq in Hneq. rewrite Hneq, andb_false_r. reflexivity.
Qed.

(** C4. On a region of at least 8 bytes [CalculateChecksum(partialChecksum)]
    is the checksum routine applied to the first 8 bytes of the region,
    stored Checksum field included, with seed [partialChecksum]; it reads
    nothing else: in any store with the same 8 bytes it returns the same
    value. *)
Theorem CalculateChecksum_header_only (b : UDP) (p : Z) (h : mem) :
  valid h b -> (8 <= len b)%nat ->
  UDP_CalculateChecksum b p h = Ret (header_Checksum (header_bytes h b) p) h /\
  forall h' : mem,
    valid h' b ->
    (forall i : nat,
        (i < 8)%nat -> peek h' (base b + i) = peek h (base b + i)) ->
    UDP_CalculateChecksum b p h'
    = Ret (header_Checksum (header_bytes h b) p) h'.
Proof.
  intros Hv Hlen. split; [now apply CalculateChecksum_ok|].
  intros h' Hv' Hsame.
  rewrite CalculateChecksum_ok by assumption.
  now rewrite (header_bytes_ext b h h').
Qed.

(** ** Undersized regions *)

Lemma field_get_any (b : UDP) (off : nat) (h : mem) :
  field_get b off h = accessor_outcome h b off.
Proof.
  unfold accessor_outcome.
  destruct (Nat.leb_spec (off + 2) (len b)) as [Hok|Hshort].
  - now apply field_get_ok.
  - now apply field_get_short.
Qed.

(** C5, as the code has it.  A region shorter than 8 bytes is not turned away
    when the view is made; on it [Checksum] and [Payload] always panic with a
    bounds error, while [SourcePort], [DestinationPort] and [Length] panic
    only if the region is shorter than their offset plus 2 and otherwise
    return the big-endian value of their two bytes, both inside the region. *)
Theorem accessors_on_undersized_region (b : UDP) (h : mem) :
  (len b < 8)%nat ->
  UDP_SourcePort b h = accessor_outcome h b udpSrcPort /\
  UDP_DestinationPort b h = accessor_outcome h b udpDstPort /\
  UDP_Length b h = accessor_outcome h b udpLength /\
  UDP_Checksum b h = Panic (field_error udpChecksum (len b)) h /\
  UDP_Payload b h = Panic (SliceBoundsOutOfRange UDPMinimumSize (len b)) h.
Proof.
  intros Hshort. repeat split; try apply field_get_any.
  - apply field_get_short. cbn. lia.
  - unfold UDP_Payload, slice_from. change UDPMinimumSize with 8%nat.
    destruct (Nat.leb_spec 8 (len b)) as [Hbad|_]; [lia|reflexivity].
Qed.

(** ** Mutators and Encode *)

Lemma mutators_ok (b : UDP) (v : Z) (h : mem) :
  (8 <= len b)%nat ->
  UDP_SetSourcePort b v h = Ret tt (put16 h (base b + udpSrcPort) v) /\
  UDP_SetDestinationPort b v h = Ret tt (put16 h (base b + udpDstPort) v) /\
  UDP_SetLength b v h = Ret tt (put16 h (base b + udpLength) v) /\
  UDP_SetChecksum b v h = Ret tt (put16 h (base b + udpChecksum) v).
Proof.
  intros Hlen. repeat split; apply field_put_ok; cbn; lia.
Qed.

(** [Encode] and the four mutators in a row are the same computation on
    every region, undersized ones included. *)
Lemma Encode_four_mutators (b : UDP) (u : UDPFields) (h : mem) :
  UDP_Encode b u h = four_mutators b u h.
Proof.
  destruct b as [a n c].
  do 8 (destruct n as [|n]; [reflexivity|]). reflexivity.
Qed.

Lemma four_mutators_ok (b : UDP) (u : UDPFields) (h : mem) :
  (8 <= len b)%nat -> four_mutators b u h = Ret tt (encoded h b u).
Proof.
  intros Hlen. unfold four_mutators, encoded.
  unfold bind at 1.
  destruct (mutators_ok b (SrcPort u) h Hlen) as (-> & _).
  unfold bind at 1.
  destruct (mutators_ok b (DstPort u)
              (put16 h (base b + udpSrcPort) (SrcPort u)) Hlen)
    as (_ & -> & _).
  unfold bind at 1.
  match goal with
  | |- context [UDP_SetLength b ?v ?h0] =>
      destruct (mutators_ok b v h0 Hlen) as (_ & _ & -> & _)
  end.
  apply (mutators_ok b (Checksum u) _ Hlen).
Qed.

Lemma Encode_ok (b : UDP) (u : UDPFields) (h : mem) :
  (8 <= len b)%nat -> UDP_Encode b u h = Ret tt (encoded h b u).
Proof.
  intros Hlen. rewrite Encode_four_mutators. now apply four_mutators_ok.
Qed.

Lemma encoded_length (h : mem) (b : UDP) (u : UDPFields) :
  length (encoded h b u) = length h.
Proof. unfold encoded. now rewrite !put16_length. Qed.

Ltac unfold_offsets :=
  unfold encoded, stored_field, stored_be,
    udpSrcPort, udpDstPort, udpLength, udpChecksum in *.

Ltac skip_later_writes :=
  repeat (rewrite put16_peek_other by lia).

Lemma encoded_fields (h : mem) (b : UDP) (u : UDPFields) :
  (base b + 8 <= length h)%nat ->
  peek (encoded h b u) (base b + 0) = byte_of_Z (Z.shiftr (SrcPort u) 8) /\
  peek (encoded h b u) (base b + 0 + 1) = byte_of_Z (SrcPort u) /\
  peek (encoded h b u) (base b + 2) = byte_of_Z (Z.shiftr (DstPort u) 8) /\
  peek (encoded h b u) (base b + 2 + 1) = byte_of_Z (DstPort u) /\
  peek (encoded h b u) (base b + 4) = byte_of_Z (Z.shiftr (Length u) 8) /\
  peek (encoded h b u) (base b + 4 + 1) = byte_of_Z (Length u) /\
  peek (encoded h b u) (base b + 6) = byte_of_Z (Z.shiftr (Checksum u) 8) /\
  peek (encoded h b u) (base b + 6 + 1) = byte_of_Z (Checksum u).
Proof.
  intros Hh. unfold_offsets.
  repeat split; skip_later_writes;
    first [ apply put16_peek_hi | apply put16_peek_lo ];
    rewrite ?put16_length; lia.
Qed.

(** C7. On a region of at least 8 bytes, [Encode] of four 16-bit values
    followed by [SourcePort], [DestinationPort], [Length] and [Checksum]
    returns those four values. *)
Theorem Encode_accessors_roundtrip (b : UDP) (u : UDPFields) (h : mem) :
  valid h b -> (8 <= len b)%nat -> fields_in_range u ->
  exists h' : mem,
    UDP_Encode b u h = Ret tt h' /\
    UDP_SourcePort b h' = Ret (SrcPort u) h' /\
    UDP_DestinationPort b h' = Ret (DstPort u) h' /\
    UDP_Length b h' = Ret (Length u) h' /\
    UDP_Checksum b h' = Ret (Checksum u) h'.
Proof.
  intros [Hcap Hin] Hlen (Hs & Hd & Hl & Hc).
  exists (encoded h b u). split; [now apply Encode_ok|].
  destruct (accessors_ok b (encoded h b u) Hlen) as (-> & -> & -> & ->).
  destruct (encoded_fields h b u) as (s0 & s1 & d0 & d1 & l0 & l1 & c0 & c1);
    [lia|].
  unfold stored_field, udpSrcPort, udpDstPort, udpLength, udpChecksum.
  rewrite s0, s1, d0, d1, l0, l1, c0, c1.
  rewrite !be16_put by lia. auto.
Qed.

(** C8. On a region of at least 8 bytes, storing the source port 0x1234
    with [SetSourcePort] or with [Encode] puts 0x12 at offset 0 and 0x34 at
    offset 1; and every mutator, and [Encode] for each of its fields, stores
    a 16-bit value most-significant byte first at the field's offset: Source
    Port at 0, Destination Port at 2, Length at 4, Checksum at 6. *)
Theorem fields_stored_big_endian (b : UDP) (h : mem) :
  valid h b -> (8 <= len b)%nat ->
  (exists h' : mem,
      UDP_SetSourcePort b 4660 h = Ret tt h' /\
      peek h' (base b + 0) = x12 /\ peek h' (base b + 1) = x34) /\
  (forall u : UDPFields,
      SrcPort u = 4660 ->
      exists h' : mem,
        UDP_Encode b u h = Ret tt h' /\
        peek h' (base b + 0) = x12 /\ peek h' (base b + 1) = x34) /\
  (forall v : Z,
      0 <= v <= 65535 ->
      (exists h' : mem,
          UDP_SetSourcePort b v h = Ret tt h' /\ stored_be h' (base b + 0) v) /\
      (exists h' : mem,
          UDP_SetDestinationPort b v h = Ret tt h' /\
          stored_be h' (base b + 2) v) /\
      (exists h' : mem,
          UDP_SetLength b v h = Ret tt h' /\ stored_be h' (base b + 4) v) /\
      (exists h' : mem,
          UDP_SetChecksum b v h = Ret tt h' /\ stored_be h' (base b + 6) v)) /\
  (forall u : UDPFields,
      fields_in_range u ->
      exists h' : mem,
        UDP_Encode b u h = Ret tt h' /\
        stored_be h' (base b + 0) (SrcPort u) /\
        stored_be h' (base b + 2) (DstPort u) /\
        stored_be h' (base b + 4) (Length u) /\
        stored_be h' (base b + 6) (Checksum u)).
Proof.
  intros [Hcap Hin] Hlen.
  assert (Hput : forall (off : nat) (v : Z),
             (off + 2 <= 8)%nat -> 0 <= v <= 65535 ->
             stored_be (put16 h (base b + off) v) (base b + off) v).
  { intros off v Hoff Hv. apply put16_stored_be; lia. }
  split; [|split; [|split]].
  - exists (put16 h (base b + udpSrcPort) 4660).
    split; [apply (mutators_ok b 4660 h Hlen)|].
    unfold udpSrcPort.
    replace (base b + 1)%nat with (base b + 0 + 1)%nat by lia. split.
    + now rewrite put16_peek_hi by lia.
    + now rewrite put16_peek_lo by lia.
  - intros u Hu. exists (encoded h b u). split; [now apply Encode_ok|].
    destruct (encoded_fields h b u) as (s0 & s1 & _); [lia|].
    replace (base b + 1)%nat with (base b + 0 + 1)%nat by lia.
    rewrite s0, s1, Hu. split; reflexivity.
  - intros v Hv.
    destruct (mutators_ok b v h Hlen) as (Hs & Hd & Hl & Hc).
    repeat split; eexists; (split; [eassumption|]); apply Hput; cbn; lia.
  - intros u (Hs & Hd & Hl & Hc). exists (encoded h b u).
    split; [now apply Encode_ok|].
    destruct (encoded_fields h b u) as (s0 & s1 & d0 & d1 & l0 & l1 & c0 & c1);
      [lia|].
    unfold stored_be.
    rewrite s0, s1, d0, d1, l0, l1, c0, c1.
    rewrite !shiftr8_byte, !Z_of_byte_of_Z by lia. auto 10.
Qed.

(** C9. On a region of at least 8 bytes, [Encode(fields)] and the sequence
    [SetSourcePort], [SetDestinationPort], [SetLength], [SetChecksum] with
    the same four values both return and leave the same store. *)
Theorem Encode_equals_four_mutators (b : UDP) (u : UDPFields) (h : mem) :
  (8 <= len b)%nat ->
  exists h' : mem,
    UDP_Encode b u h = Ret tt h' /\ four_mutators b u h = Ret tt h'.
Proof.
  intros Hlen. exists (encoded h b u).
  split; [now apply Encode_ok | now apply four_mutators_ok].
Qed.

(** C10. On a region of at least 8 bytes each single-field mutator returns
    and changes nothing but the two bytes of its own field: every other
    byte of the store, so the other three fields and the payload from offset
    8 on, is as before, and the store keeps its size. *)
Theorem mutators_frame (b : UDP) (v : Z) (h : mem) :
  (8 <= len b)%nat ->
  (exists h' : mem,
      UDP_SetSourcePort b v h = Ret tt h' /\
      same_outside (base b + udpSrcPort) h h') /\
  (exists h' : mem,
      UDP_SetDestinationPort b v h = Ret tt h' /\
      same_outside (base b + udpDstPort) h h') /\
  (exists h' : mem,
      UDP_SetLength b v h = Ret tt h' /\
      same_outside (base b + udpLength) h h') /\
  (exists h' : mem,
      UDP_SetChecksum b v h = Ret tt h' /\
      same_outside (base b + udpChecksum) h h').
Proof.
  intros Hlen. destruct (mutators_ok b v h Hlen) as (Hs & Hd & Hl & Hc).
  repeat split; eexists; (split; [eassumption|]); apply put16_same_outside.
Qed.

(** ** Regions of full size *)

(** C6, as the code has it.  On a region of at least 8 bytes no operation of
    the header view panics: the accessors, [Payload], the mutators, [Encode]
    and [CalculateChecksum] return, and [IsChecksumValid] returns a boolean
    and leaves the store alone. *)
Theorem no_panic_on_full_region
    (b : UDP) (v p : Z) (u : UDPFields) (src dst : Address) (netProto : Z)
    (data : VectorisedView) (h : mem) :
  valid h b -> (8 <= len b)%nat ->
  panics (UDP_SourcePort b h) = false /\
  panics (UDP_DestinationPort b h) = false /\
  panics (UDP_Length b h) = false /\
  panics (UDP_Checksum b h) = false /\
  panics (UDP_Payload b h) = false /\
  panics (UDP_SetSourcePort b v h) = false /\
  panics (UDP_SetDestinationPort b v h) = false /\
  panics (UDP_SetLength b v h) = false /\
  panics (UDP_SetChecksum b v h) = false /\
  panics (UDP_Encode b u h) = false /\
  panics (UDP_CalculateChecksum b p h) = false /\
  exists r : bool, UDP_IsChecksumValid b src dst netProto data h = Ret r h.
Proof.
  intros Hv Hlen.
  destruct (accessors_ok b h Hlen) as (-> & -> & -> & ->).
  destruct (mutators_ok b v h Hlen) as (-> & -> & -> & ->).
  rewrite Encode_ok, CalculateChecksum_ok, IsChecksumValid_ok by assumption.
  unfold UDP_Payload, slice_from. change UDPMinimumSize with 8%nat.
  destruct (Nat.leb_spec 8 (len b)) as [_|Hbad]; [|lia].
  repeat split; eauto.
Qed.

(** ** Further lemmas on bytes and the store *)

Lemma byte_of_Z_of_byte (x : byte) : byte_of_Z (Z_of_byte x) = x.
Proof.
  unfold byte_of_Z. rewrite Z.mod_small by apply Z_of_byte_range.
  unfold Z_of_byte. rewrite N2Z.id, Byte.of_to_N. reflexivity.
Qed.

Lemma byte_of_Z_mod (v : Z) : byte_of_Z (v mod 256) = byte_of_Z v.
Proof. unfold byte_of_Z. now rewrite Z.mod_mod by lia. Qed.

Lemma be16_hi (hi lo : byte) : byte_of_Z (Z.shiftr (be16 hi lo) 8) = hi.
Proof.
  pose proof (Z_of_byte_range hi). pose proof (Z_of_byte_range lo).
  rewrite Z.shiftr_div_pow2 by lia. change (2 ^ 8) with 256. unfold be16.
  replace ((256 * Z_of_byte hi + Z_of_byte lo) / 256) with (Z_of_byte hi).
  - apply byte_of_Z_of_byte.
  - apply Z.div_unique with (r := Z_of_byte lo); lia.
Qed.

Lemma be16_lo (hi lo : byte) : byte_of_Z (be16 hi lo) = lo.
Proof.
  pose proof (Z_of_byte_range hi). pose proof (Z_of_byte_range lo).
  rewrite <- byte_of_Z_mod. unfold be16.
  replace ((256 * Z_of_byte hi + Z_of_byte lo) mod 256) with (Z_of_byte lo).
  - apply byte_of_Z_of_byte.
  - apply Z.mod_unique with (q := Z_of_byte hi); lia.
Qed.

Lemma lookup_peek (h : mem) (a : nat) :
  (a < length h)%nat -> h !! a = Some (peek h a).
Proof.
  intros Ha. unfold peek.
  destruct (lookup_lt_is_Some_2 h a Ha) as [x ->]. reflexivity.
Qed.

Lemma put16_id (h : mem) (a : nat) :
  (a + 1 < length h)%nat ->
  put16 h a (be16 (peek h a) (peek h (a + 1))) = h.
Proof.
  intros Ha. unfold put16. rewrite be16_hi, be16_lo.
  rewrite (list_insert_id h a) by (apply lookup_peek; lia).
  apply list_insert_id, lookup_peek. lia.
Qed.

Lemma put16_commute (h : mem) (a : nat) (v : Z) (a' : nat) (v' : Z) :
  (a + 2 <= a' \/ a' + 2 <= a)%nat ->
  put16 (put16 h a v) a' v' = put16 (put16 h a' v') a v.
Proof.
  intros Hd. unfold put16.
  rewrite (list_insert_insert_ne _ a' (a + 1)) by lia.
  rewrite (list_insert_insert_ne _ a' a) by lia.
  rewrite (list_insert_insert_ne _ (a' + 1) (a + 1)) by lia.
  rewrite (list_insert_insert_ne _ (a' + 1) a) by lia.
  reflexivity.
Qed.

Lemma put16_put16 (h : mem) (a : nat) (v1 v2 : Z) :
  put16 (put16 h a v1) a v2 = put16 h a v2.
Proof.
  unfold put16.
  rewrite (list_insert_insert_ne _ a (a + 1)) by lia.
  now rewrite !list_insert_insert_eq.
Qed.

Lemma field_put_any (b : UDP) (off : nat) (v : Z) (h : mem) :
  field_put b off v h = mutator_outcome h b off v.
Proof.
  unfold mutator_outcome.
  destruct (Nat.leb_spec (off + 2) (len b)) as [Hok|Hshort].
  - now apply field_put_ok.
  - now apply field_put_short.
Qed.

Lemma stored_field_ext (b : UDP) (off : nat) (h h' : mem) :
  (off + 2 <= 8)%nat -> same_header b h h' ->
  stored_field h' b off = stored_field h b off.
Proof.
  intros Hoff Hsame. unfold stored_field.
  rewrite <- Nat.add_assoc. now rewrite !Hsame by lia.
Qed.

Lemma in_accessors (og : nat) (get : UDP -> M Z) :
  In (og, get) accessors ->
  (og + 2 <= 8)%nat /\ forall b : UDP, get b = field_get b og.
Proof.
  intros Hin. cbn in Hin.
  destruct Hin as [H|[H|[H|[H|[]]]]]; inversion H; subst;
    (split; [cbn; lia | reflexivity]).
Qed.

Lemma in_mutators (op : nat) (put : UDP -> Z -> M unit) :
  In (op, put) mutators ->
  (op + 2 <= 8)%nat /\ forall (b : UDP) (v : Z), put b v = field_put b op v.
Proof.
  intros Hin. cbn in Hin.
  destruct Hin as [H|[H|[H|[H|[]]]]]; inversion H; subst;
    (split; [cbn; lia | reflexivity]).
Qed.

(** ** Accessors and mutators on every region *)

(** X3. On every region, undersized or not, an accessor leaves the store as
    it found it, whether it returns or panics, and a value it returns is a
    16-bit value. *)
Theorem accessors_read_only_and_16_bit :
  Forall (fun a : nat * (UDP -> M Z) =>
            forall (b : UDP) (h : mem),
              store_after (snd a b h) = h /\ fits_u16 (snd a b h))
         accessors.
Proof.
  assert (Hget : forall (off : nat) (b : UDP) (h : mem),
             store_after (field_get b off h) = h /\
             fits_u16 (field_get b off h)).
  { intros off b h. rewrite field_get_any. unfold accessor_outcome.
    destruct (off + 2 <=? len b)%nat; cbn; split; auto.
    unfold stored_field.
    pose proof (be16_range (peek h (base b + off))
                  (peek h (base b + off + 1))). lia. }
  unfold accessors. repeat constructor; cbn [snd]; apply Hget.
Qed.

(** X10. On every region a mutator either writes both bytes of its field,
    when the field lies inside the region (the region may still be shorter
    than 8 bytes), or panics with a bounds error before it has written
    anything. *)
Theorem mutators_write_both_bytes_or_none (b : UDP) (v : Z) (h : mem) :
  UDP_SetSourcePort b v h = mutator_outcome h b udpSrcPort v /\
  UDP_SetDestinationPort b v h = mutator_outcome h b udpDstPort v /\
  UDP_SetLength b v h = mutator_outcome h b udpLength v /\
  UDP_SetChecksum b v h = mutator_outcome h b udpChecksum v.
Proof. repeat split; apply field_put_any. Qed.

(** ** Payload *)

Lemma Payload_ok (b : UDP) (h : mem) :
  (8 <= len b)%nat -> UDP_Payload b h = Ret (payload_of b) h.
Proof.
  intros Hlen. unfold UDP_Payload, slice_from. change UDPMinimumSize with 8%nat.
  destruct (Nat.leb_spec 8 (len b)) as [_|Hbad]; [reflexivity|lia].
Qed.

(** X1. On a region of at least 8 bytes [Payload] returns, without touching
    the store, a slice that starts 8 bytes into the region and has 8 bytes
    less of length and capacity; it shows the bytes of the region behind the
    header (none for a region of exactly 8 bytes) and lies inside the store
    when the region does. *)
Theorem Payload_is_region_after_header (b : UDP) (h : mem) :
  (8 <= len b)%nat ->
  UDP_Payload b h = Ret (payload_of b) h /\
  contents h (payload_of b) = drop 8 (contents h b) /\
  length (contents h (payload_of b))
  = Nat.min (len b - 8) (length h - (base b + 8)) /\
  (valid h b -> valid h (payload_of b)).
Proof.
  intros Hlen. split; [now apply Payload_ok|].
  unfold contents, payload_of, valid. cbn [base len cap].
  split; [|split].
  - rewrite <- drop_drop.
    rewrite (take_drop_commute (drop (base b) h) (len b - 8) 8).
    replace (8 + (len b - 8))%nat with (len b) by lia. reflexivity.
  - rewrite length_take, length_drop. reflexivity.
  - intros [Hcap Hin]. lia.
Qed.

(** X2. The payload is a view: on a valid region of at least 8 bytes a write
    at index [i] of the slice [Payload] returned lands in byte [8 + i] of
    the region, and the four header accessors return what they returned
    before. *)
Theorem Payload_write_lands_in_region
    (b : UDP) (i : nat) (x : byte) (h : mem) :
  valid h b -> (8 <= len b)%nat -> (i < len b - 8)%nat ->
  exists h' : mem,
    (do p <- UDP_Payload b; store p i x) h = Ret tt h' /\
    contents h' b = <[(8 + i)%nat := x]> (contents h b) /\
    Forall (fun a : nat * (UDP -> M Z) =>
              snd a b h' = Ret (stored_field h b (fst a)) h')
           accessors.
Proof.
  intros [Hcap Hin] Hlen Hi.
  exists (<[(base b + 8 + i)%nat := x]> h). split; [|split].
  - unfold bind. rewrite Payload_ok by exact Hlen.
    unfold store, payload_of. cbn [base len].
    destruct (Nat.ltb_spec i (len b - 8)) as [_|Hbad]; [reflexivity|lia].
  - unfold contents.
    rewrite drop_insert_ge by lia. rewrite take_insert_lt by lia.
    f_equal. lia.
  - assert (Hget : forall off : nat,
               (off + 2 <= 8)%nat ->
               field_get b off (<[(base b + 8 + i)%nat := x]> h)
               = Ret (stored_field h b off) (<[(base b + 8 + i)%nat := x]> h)).
    { intros off Hoff. rewrite field_get_ok by lia. f_equal.
      unfold stored_field. now rewrite !peek_insert_ne by lia. }
    unfold accessors. repeat constructor; cbn [fst snd]; apply Hget; cbn; lia.
Qed.

(** ** How mutators, accessors and Encode compose *)

Lemma stored_field_put16 (b : UDP) (op og : nat) (v : Z) (h : mem) :
  (base b + 8 <= length h)%nat -> (op + 2 <= 8)%nat -> (og + 2 <= 8)%nat ->
  (og = op \/ og + 2 <= op \/ op + 2 <= og)%nat ->
  0 <= v <= 65535 ->
  stored_field (put16 h (base b + op) v) b og
  = if (og =? op)%nat then v else stored_field h b og.
Proof.
  intros Hh Hop Hog Hrel Hv. unfold stored_field.
  destruct (Nat.eqb_spec og op) as [->|Hne].
  - apply put16_be16; lia.
  - now rewrite !put16_peek_other by lia.
Qed.

(** X4. On a valid region of at least 8 bytes, after any mutator has stored
    a 16-bit value, the accessor of the same field returns that value and
    the accessors of the other three fields return what the header held
    before. *)
Theorem mutator_then_accessor
    (b : UDP) (v : Z) (h : mem)
    (op : nat) (put : UDP -> Z -> M unit) (og : nat) (get : UDP -> M Z) :
  valid h b -> (8 <= len b)%nat -> 0 <= v <= 65535 ->
  In (op, put) mutators -> In (og, get) accessors ->
  exists h' : mem,
    put b v h = Ret tt h' /\
    get b h' = Ret (if (og =? op)%nat then v else stored_field h b og) h'.
Proof.
  intros [Hcap Hin] Hlen Hv Hput Hget.
  exists (put16 h (base b + op) v).
  assert (Hrel : (og = op \/ og + 2 <= op \/ op + 2 <= og)%nat).
  { cbn in Hput, Hget.
    destruct Hput as [H|[H|[H|[H|[]]]]]; inversion H; subst;
      destruct Hget as [H'|[H'|[H'|[H'|[]]]]]; inversion H'; subst;
      unfold udpSrcPort, udpDstPort, udpLength, udpChecksum; lia. }
  destruct (in_mutators op put Hput) as [Hop ->].
  destruct (in_accessors og get Hget) as [Hog ->].
  split; [apply field_put_ok; lia|].
  rewrite field_get_ok by lia. f_equal.
  apply stored_field_put16; lia.
Qed.

(** X5. On a region of at least 8 bytes the mutators of two different
    fields commute: in either order both return and leave the same store. *)
Theorem mutators_of_different_fields_commute
    (b : UDP) (v1 v2 : Z) (h : mem)
    (o1 : nat) (put1 : UDP -> Z -> M unit)
    (o2 : nat) (put2 : UDP -> Z -> M unit) :
  (8 <= len b)%nat ->
  In (o1, put1) mutators -> In (o2, put2) mutators -> o1 <> o2 ->
  exists h' : mem,
    (run put1 b v1; put2 b v2) h = Ret tt h' /\
    (run put2 b v2; put1 b v1) h = Ret tt h'.
Proof.
  intros Hlen H1 H2 Hne.
  assert (Hrel : (o1 + 2 <= o2 \/ o2 + 2 <= o1)%nat).
  { cbn in H1, H2.
    destruct H1 as [H|[H|[H|[H|[]]]]]; inversion H; subst;
      destruct H2 as [H'|[H'|[H'|[H'|[]]]]]; inversion H'; subst;
      unfold udpSrcPort, udpDstPort, udpLength, udpChecksum in *;
      first [lia | congruence]. }
  destruct (in_mutators o1 put1 H1) as [Ho1 ->].
  destruct (in_mutators o2 put2 H2) as [Ho2 ->].
  exists (put16 (put16 h (base b + o1) v1) (base b + o2) v2).
  unfold bind. rewrite !field_put_ok by lia.
  rewrite (put16_commute h (base b + o1) v1 (base b + o2) v2) by lia.
  split; reflexivity.
Qed.

(** X6. On a region of at least 8 bytes the last write wins: a mutator
    called twice leaves the store of its second call alone. *)
Theorem mutator_twice_is_second_call
    (b : UDP) (v1 v2 : Z) (h : mem) (o : nat) (put : UDP -> Z -> M unit) :
  (8 <= len b)%nat -> In (o, put) mutators ->
  (run put b v1; put b v2) h = put b v2 h.
Proof.
  intros Hlen Hput. destruct (in_mutators o put Hput) as [Ho Hp].
  unfold bind. rewrite !Hp, !field_put_ok by lia.
  now rewrite put16_put16.
Qed.

Lemma encoded_absorbs (h : mem) (b : UDP) (u1 u2 : UDPFields) :
  encoded (encoded h b u1) b u2 = encoded h b u2.
Proof.
  unfold encoded, udpSrcPort, udpDstPort, udpLength, udpChecksum.
  rewrite (put16_commute _ (base b + 6) _ (base b + 0)) by lia.
  rewrite (put16_commute _ (base b + 4) _ (base b + 0)) by lia.
  rewrite (put16_commute _ (base b + 2) _ (base b + 0)) by lia.
  rewrite put16_put16.
  rewrite (put16_commute _ (base b + 6) _ (base b + 2)) by lia.
  rewrite (put16_commute _ (base b + 4) _ (base b + 2)) by lia.
  rewrite put16_put16.
  rewrite (put16_commute _ (base b + 6) _ (base b + 4)) by lia.
  rewrite put16_put16.
  rewrite put16_put16.
  reflexivity.
Qed.

(** X7. On a region of at least 8 bytes [Encode] replaces the whole header:
    after a second [Encode] nothing of the first is left, the store is the
    one the second [Encode] alone produces. *)
Theorem Encode_twice_is_second_call (b : UDP) (u1 u2 : UDPFields) (h : mem) :
  (8 <= len b)%nat ->
  (run UDP_Encode b u1; UDP_Encode b u2) h = UDP_Encode b u2 h.
Proof.
  intros Hlen. unfold bind. rewrite !Encode_ok by exact Hlen.
  now rewrite encoded_absorbs.
Qed.

Lemma encoded_lookup_outside (h : mem) (b : UDP) (u : UDPFields) (i : nat) :
  (i < base b \/ base b + 8 <= i)%nat -> encoded h b u !! i = h !! i.
Proof.
  intros Hi. unfold encoded, udpSrcPort, udpDstPort, udpLength, udpChecksum.
  now rewrite !put16_lookup_other by lia.
Qed.

(** X8. On a region of at least 8 bytes [Encode] returns and changes only
    the 8 header bytes: the store keeps its size, every byte before the
    region and from offset 8 on is as before, and so the payload reads the
    same. *)
Theorem Encode_frame (b : UDP) (u : UDPFields) (h : mem) :
  (8 <= len b)%nat ->
  exists h' : mem,
    UDP_Encode b u h = Ret tt h' /\
    same_outside_header b h h' /\
    contents h' (payload_of b) = contents h (payload_of b).
Proof.
  intros Hlen. exists (encoded h b u).
  split; [now apply Encode_ok|]. split.
  - split; [apply encoded_length|]. apply encoded_lookup_outside.
  - unfold contents, payload_of. cbn [base len].
    apply (f_equal (take (len b - 8))).
    apply list_eq. intros i. rewrite !lookup_drop.
    apply encoded_lookup_outside. lia.
Qed.

(** X9. Decoding then encoding changes nothing: on a valid region of at
    least 8 bytes [Encode] of the four values the header holds returns and
    leaves the store exactly as it was. *)
Theorem Encode_of_stored_fields_is_identity (b : UDP) (h : mem) :
  valid h b -> (8 <= len b)%nat ->
  UDP_Encode b (stored_fields h b) h = Ret tt h.
Proof.
  intros [Hcap Hin] Hlen. rewrite Encode_ok by exact Hlen. f_equal.
  unfold encoded, stored_fields, stored_field.
  cbn [SrcPort DstPort Length Checksum].
  unfold udpSrcPort, udpDstPort, udpLength, udpChecksum.
  rewrite (put16_id h (base b + 0)) by lia.
  rewrite (put16_id h (base b + 2)) by lia.
  rewrite (put16_id h (base b + 4)) by lia.
  apply put16_id. lia.
Qed.

(** ** Undersized regions, continued *)

Lemma four_mutators_field_put (b : UDP) (u : UDPFields) (h : mem) :
  four_mutators b u h
  = (run field_put b 0 (SrcPort u);
     run field_put b 2 (DstPort u);
     run field_put b 4 (Length u);
     field_put b 6 (Checksum u)) h.
Proof. reflexivity. Qed.

(** X11. [Encode] is not all-or-nothing on a region shorter than 8 bytes:
    it writes the fields that fit, in the order Source Port, Destination
    Port, Length (one field for every two bytes of the region), then panics
    with the index error of the first field that does not fit, and the
    writes made stay in the store. *)
Theorem Encode_on_undersized_region_writes_prefix
    (b : UDP) (u : UDPFields) (h : mem) :
  (len b < 8)%nat ->
  UDP_Encode b u h
  = Panic (IndexOutOfRange 1 (len b mod 2))
      (encode_prefix h b u (len b / 2)).
Proof.
  intros Hshort. rewrite Encode_four_mutators, four_mutators_field_put.
  destruct b as [a n c]. cbn [len] in Hshort.
  do 8 (destruct n as [|n];
        [unfold bind; rewrite ?field_put_ok by (cbn; lia);
         rewrite field_put_short by (cbn; lia); reflexivity |]).
  lia.
Qed.

(** X12. On a region shorter than 8 bytes [IsChecksumValid] gives no
    verdict: whatever the protocol, the addresses and the payload, it panics
    with the bounds error of its first step, the read of the Checksum field,
    and leaves the store alone. *)
Theorem IsChecksumValid_on_undersized_region_panics
    (b : UDP) (src dst : Address) (netProto : Z) (data : VectorisedView)
    (h : mem) :
  (len b < 8)%nat ->
  UDP_IsChecksumValid b src dst netProto data h
  = Panic (field_error udpChecksum (len b)) h.
Proof.
  intros Hshort. unfold UDP_IsChecksumValid, bind.
  change (UDP_Checksum b h) with (field_get b udpChecksum h).
  rewrite field_get_short by (cbn; lia). reflexivity.
Qed.

Lemma fold_views_ext (vs : list slice) (x : Z) (h h' : mem) :
  Forall (fun v => contents h' v = contents h v) vs ->
  fold_left (fun acc v => header_Checksum (contents h' v) acc) vs x
  = fold_left (fun acc v => header_Checksum (contents h v) acc) vs x.
Proof.
  intros Hall. revert x.
  induction Hall as [|v vs Hv _ IH]; intros x; [reflexivity|].
  cbn [fold_left]. rewrite Hv. apply IH.
Qed.

(** X13. What [IsChecksumValid] reads: on valid regions of at least 8 bytes
    its verdict is the same in any two stores that show the same 8 header
    bytes and the same bytes in every payload span; the rest of the region
    and of the store has no influence, and neither store is changed. *)
Theorem IsChecksumValid_reads_header_and_spans
    (b : UDP) (src dst : Address) (netProto : Z) (data : VectorisedView)
    (h h' : mem) :
  valid h b -> valid h' b -> (8 <= len b)%nat ->
  same_header b h h' ->
  Forall (fun v => contents h' v = contents h v) (Views data) ->
  exists r : bool,
    UDP_IsChecksumValid b src dst netProto data h = Ret r h /\
    UDP_IsChecksumValid b src dst netProto data h' = Ret r h'.
Proof.
  intros Hv Hv' Hlen Hhdr Hspans.
  rewrite !IsChecksumValid_ok by assumption.
  eexists. split; [reflexivity|]. f_equal.
  unfold spec_full_checksum.
  rewrite (header_bytes_ext b h h' Hhdr).
  rewrite (stored_field_ext b udpChecksum h h') by (cbn; auto; lia).
  rewrite (stored_field_ext b udpLength h h') by (cbn; auto; lia).
  now rewrite (fold_views_ext _ _ h h' Hspans).
Qed.

(** X14. [CalculateChecksum] is bounded by the capacity of the region, not
    by its length: with a capacity of at least 8 it returns the checksum of
    the 8 bytes from the start of the region even when the region is
    shorter than 8 bytes, and with a smaller capacity it panics. *)
Theorem CalculateChecksum_bounded_by_capacity (b : UDP) (p : Z) (h : mem) :
  (base b + cap b <= length h)%nat ->
  UDP_CalculateChecksum b p h
  = if (8 <=? cap b)%nat
    then Ret (header_Checksum (header_bytes h b) p) h
    else Panic (SliceCapOutOfRange 8 (cap b)) h.
Proof.
  intros Hin. unfold UDP_CalculateChecksum, slice_to, bind.
  change UDPMinimumSize with 8%nat.
  destruct (Nat.leb_spec 8 (cap b)) as [Hcap|Hcap]; [|reflexivity].
  unfold ret, Checksum_of. rewrite header_bytes_contents by lia. reflexivity.
Qed.

End Checksumming.

(** ** The header view on concrete packets *)

(** The operations below run with the reference checksum routines. *)

Example zero_checksum_over_ipv4_is_valid :
  UDP_IsChecksumValid (list byte) InternetChecksum InternetPseudoHeader
    ref_IPv4ProtocolNumber dns_view addr_a addr_b ref_IPv4ProtocolNumber
    dns_payload dns_store
  = Ret true dns_store.
Proof. vm_compute. reflexivity. Qed.

Example zero_checksum_over_ipv6_is_invalid :
  UDP_IsChecksumValid (list byte) InternetChecksum InternetPseudoHeader
    ref_IPv4ProtocolNumber dns_view addr_a addr_b ref_IPv6ProtocolNumber
    dns_payload dns_store
  = Ret false dns_store.
Proof. vm_compute. reflexivity. Qed.

Example sealed_datagram_is_valid :
  UDP_IsChecksumValid (list byte) InternetChecksum InternetPseudoHeader
    ref_IPv4ProtocolNumber dns_view addr_a addr_b ref_IPv6ProtocolNumber
    dns_payload sealed_store
  = Ret true sealed_store.
Proof. vm_compute. reflexivity. Qed.

Example Encode_on_undersized_region_panics_midway :
  UDP_Encode short_view example_fields short_store
  = Panic (IndexOutOfRange 1 1)
      [x12; x34; x00; x35; x00; x10; x00].
Proof. vm_compute. reflexivity. Qed.

(** A seven-byte view with room for an eighth byte in its backing array:
    [b[:8]] re-slices up to the capacity, and the checksum covers the byte
    behind the view. *)
Example CalculateChecksum_reslices_to_capacity :
  UDP_CalculateChecksum InternetChecksum (Slice 0 7 8) 0 (short_store ++ [xff])
  = Ret 1558 (short_store ++ [xff]).
Proof. vm_compute. reflexivity. Qed.

(** C5 as stated fails: a seven-byte region is accepted, and the first
    accessor called on it, [SourcePort], returns a value. *)
Lemma undersized_region_SourcePort_returns :
  length short_store = 7%nat /\ len short_view = 7%nat /\
  UDP_SourcePort short_view short_store = Ret 53 short_store.
Proof. repeat split. Qed.

(** C6 as stated fails: [Checksum] on a seven-byte region ends in a run-time
    panic of the index check. *)
Lemma undersized_region_Checksum_panics :
  length short_store = 7%nat /\ len short_view = 7%nat /\
  UDP_Checksum short_view short_store
  = Panic (IndexOutOfRange 1 1) short_store.
Proof. repeat split. Qed.

Lemma dns_view_valid : valid dns_store dns_view.
Proof. split; vm_compute; lia. Defined.

Lemma sealed_view_valid : valid sealed_store dns_view.
Proof. split; vm_compute; lia. Defined.

Lemma dns_view_full : (8 <= len dns_view)%nat.
Proof. vm_compute. lia. Defined.

Lemma example_fields_in_range : fields_in_range example_fields.
Proof. unfold fields_in_range. cbn. lia. Defined.

Lemma IsChecksumValid_ipv4_zero_bypass_witness :
  (8 <= len dns_view)%nat /\
  stored_field dns_store dns_view udpChecksum = 0 /\
  UDP_IsChecksumValid (list byte) InternetChecksum InternetPseudoHeader
    ref_IPv4ProtocolNumber dns_view addr_a addr_b ref_IPv4ProtocolNumber
    dns_payload dns_store
  = Ret true dns_store.
Proof.
  assert (Hlen : (8 <= len dns_view)%nat) by (vm_compute; lia).
  assert (Hzero : stored_field dns_store dns_view udpChecksum = 0)
    by reflexivity.
  split; [exact Hlen|]. split; [exact Hzero|].
  exact (IsChecksumValid_ipv4_zero_bypass (list byte) InternetChecksum
           InternetPseudoHeader ref_IPv4ProtocolNumber dns_view addr_a addr_b
           dns_payload dns_store Hlen Hzero).
Defined.

Lemma IsChecksumValid_full_computation_witness :
  stored_field sealed_store dns_view udpChecksum = 54960 /\
  exists r : bool,
    UDP_IsChecksumValid (list byte) InternetChecksum InternetPseudoHeader
      ref_IPv4ProtocolNumber dns_view addr_a addr_b ref_IPv4ProtocolNumber
      dns_payload sealed_store
    = Ret r sealed_store /\
    (r = true <->
     spec_full_checksum (list byte) InternetChecksum InternetPseudoHeader
       sealed_store dns_view addr_a addr_b dns_payload = 65535).
Proof.
  split; [reflexivity|].
  apply (IsChecksumValid_full_computation (list byte) InternetChecksum
           InternetPseudoHeader ref_IPv4ProtocolNumber dns_view addr_a addr_b
           ref_IPv4ProtocolNumber dns_payload sealed_store
           sealed_view_valid dns_view_full).
  left. vm_compute. discriminate.
Defined.

Lemma IsChecksumValid_ipv6_zero_not_bypassed_witness :
  ref_IPv6ProtocolNumber <> ref_IPv4ProtocolNumber /\
  stored_field dns_store dns_view udpChecksum = 0 /\
  UDP_IsChecksumValid (list byte) InternetChecksum InternetPseudoHeader
    ref_IPv4ProtocolNumber dns_view addr_a addr_b ref_IPv6ProtocolNumber
    dns_payload dns_store
  = Ret (spec_full_checksum (list byte) InternetChecksum InternetPseudoHeader
           dns_store dns_view addr_a addr_b dns_payload =? 65535) dns_store.
Proof.
  assert (Hneq : ref_IPv6ProtocolNumber <> ref_IPv4ProtocolNumber)
    by (vm_compute; discriminate).
  assert (Hzero : stored_field dns_store dns_view udpChecksum = 0)
    by reflexivity.
  split; [exact Hneq|]. split; [exact Hzero|].
  exact (IsChecksumValid_ipv6_zero_not_bypassed (list byte) InternetChecksum
           InternetPseudoHeader ref_IPv4ProtocolNumber ref_IPv6ProtocolNumber
           dns_view addr_a addr_b dns_payload dns_store
           Hneq dns_view_valid dns_view_full Hzero).
Defined.

Lemma CalculateChecksum_header_only_witness :
  UDP_CalculateChecksum InternetChecksum dns_view 10575 dns_store
  = Ret (InternetChecksum (header_bytes dns_store dns_view) 10575) dns_store
  /\
  UDP_CalculateChecksum InternetChecksum dns_view 10575 sealed_store
  = Ret (InternetChecksum (header_bytes sealed_store dns_view) 10575)
      sealed_store.
Proof.
  split.
  - exact (proj1 (CalculateChecksum_header_only InternetChecksum dns_view
                    10575 dns_store dns_view_valid dns_view_full)).
  - exact (proj1 (CalculateChecksum_header_only InternetChecksum dns_view
                    10575 sealed_store sealed_view_valid dns_view_full)).
Defined.

Lemma accessors_on_undersized_region_witness :
  (len short_view < 8)%nat /\
  UDP_SourcePort short_view short_store = Ret 53 short_store /\
  UDP_DestinationPort short_view short_store = Ret 1234 short_store /\
  UDP_Length short_view short_store = Ret 16 short_store /\
  UDP_Checksum short_view short_store
  = Panic (IndexOutOfRange 1 1) short_store /\
  UDP_Payload short_view short_store
  = Panic (SliceBoundsOutOfRange 8 7) short_store.
Proof.
  assert (Hshort : (len short_view < 8)%nat) by (vm_compute; lia).
  split; [exact Hshort|].
  exact (accessors_on_undersized_region short_view short_store Hshort).
Defined.

Lemma no_panic_on_full_region_witness :
  panics (UDP_Checksum dns_view dns_store) = false /\
  panics (UDP_Encode dns_view example_fields dns_store) = false /\
  exists r : bool,
    UDP_IsChecksumValid (list byte) InternetChecksum InternetPseudoHeader
      ref_IPv4ProtocolNumber dns_view addr_a addr_b ref_IPv6ProtocolNumber
      dns_payload dns_store
    = Ret r dns_store.
Proof.
  pose proof (no_panic_on_full_region (list byte) InternetChecksum
                InternetPseudoHeader ref_IPv4ProtocolNumber dns_view 4660 0
                example_fields addr_a addr_b ref_IPv6ProtocolNumber
                dns_payload dns_store dns_view_valid dns_view_full) as H.
  split; [apply H|]. split; apply H.
Defined.

Lemma Encode_accessors_roundtrip_witness :
  exists h' : mem,
    UDP_Encode dns_view example_fields dns_store = Ret tt h' /\
    UDP_SourcePort dns_view h' = Ret 4660 h' /\
    UDP_DestinationPort dns_view h' = Ret 53 h' /\
    UDP_Length dns_view h' = Ret 16 h' /\
    UDP_Checksum dns_view h' = Ret 48879 h'.
Proof.
  exact (Encode_accessors_roundtrip dns_view example_fields dns_store
           dns_view_valid dns_view_full example_fields_in_range).
Defined.

Lemma fields_stored_big_endian_witness :
  exists h' : mem,
    UDP_SetSourcePort dns_view 4660 dns_store = Ret tt h' /\
    peek h' 4 = x12 /\ peek h' 5 = x34.
Proof.
  exact (proj1 (fields_stored_big_endian dns_view dns_store
                  dns_view_valid dns_view_full)).
Defined.

Lemma Encode_equals_four_mutators_witness :
  exists h' : mem,
    UDP_Encode dns_view example_fields dns_store = Ret tt h' /\
    four_mutators dns_view example_fields dns_store = Ret tt h'.
Proof.
  exact (Encode_equals_four_mutators dns_view example_fields dns_store
           dns_view_full).
Defined.

Lemma mutators_frame_witness :
  exists h' : mem,
    UDP_SetChecksum dns_view 54960 dns_store = Ret tt h' /\
    same_outside 10 dns_store h'.
Proof.
  exact (proj2 (proj2 (proj2 (mutators_frame dns_view 54960 dns_store
                                dns_view_full)))).
Defined.

(** ** The further properties on concrete packets *)

Lemma in_mutators_SetSourcePort : In (udpSrcPort, UDP_SetSourcePort) mutators.
Proof. left. reflexivity. Defined.

Lemma in_mutators_SetLength : In (udpLength, UDP_SetLength) mutators.
Proof. do 2 right. left. reflexivity. Defined.

Lemma in_mutators_SetChecksum : In (udpChecksum, UDP_SetChecksum) mutators.
Proof. do 3 right. left. reflexivity. Defined.

Lemma in_accessors_Length : In (udpLength, UDP_Length) accessors.
Proof. do 2 right. left. reflexivity. Defined.

Lemma in_accessors_Checksum : In (udpChecksum, UDP_Checksum) accessors.
Proof. do 3 right. left. reflexivity. Defined.

Lemma other_prefix_valid : valid dns_store_other_prefix dns_view.
Proof. split; vm_compute; lia. Defined.

Lemma short_view_short : (len short_view < 8)%nat.
Proof. vm_compute. lia. Defined.

Lemma Payload_is_region_after_header_witness :
  UDP_Payload dns_view dns_store = Ret (Slice 12 8 8) dns_store /\
  contents dns_store (Slice 12 8 8) = drop 8 (contents dns_store dns_view) /\
  length (contents dns_store (Slice 12 8 8)) = 8%nat /\
  (valid dns_store dns_view -> valid dns_store (Slice 12 8 8)).
Proof.
  exact (Payload_is_region_after_header dns_view dns_store dns_view_full).
Defined.

Lemma Payload_write_lands_in_region_witness :
  exists h' : mem,
    (do p <- UDP_Payload dns_view; store p 2 xff) dns_store = Ret tt h' /\
    contents h' dns_view = <[10%nat := xff]> (contents dns_store dns_view) /\
    Forall (fun a : nat * (UDP -> M Z) =>
              snd a dns_view h'
              = Ret (stored_field dns_store dns_view (fst a)) h')
           accessors.
Proof.
  apply (Payload_write_lands_in_region dns_view 2 xff dns_store
           dns_view_valid dns_view_full).
  vm_compute. lia.
Defined.

Lemma mutator_then_accessor_witness :
  (exists h' : mem,
      UDP_SetLength dns_view 24 dns_store = Ret tt h' /\
      UDP_Length dns_view h' = Ret 24 h') /\
  (exists h' : mem,
      UDP_SetLength dns_view 24 dns_store = Ret tt h' /\
      UDP_Checksum dns_view h' = Ret 0 h').
Proof.
  assert (Hv : 0 <= 24 <= 65535) by lia.
  split.
  - exact (mutator_then_accessor dns_view 24 dns_store
             udpLength UDP_SetLength udpLength UDP_Length
             dns_view_valid dns_view_full Hv
             in_mutators_SetLength in_accessors_Length).
  - exact (mutator_then_accessor dns_view 24 dns_store
             udpLength UDP_SetLength udpChecksum UDP_Checksum
             dns_view_valid dns_view_full Hv
             in_mutators_SetLength in_accessors_Checksum).
Defined.

Lemma mutators_of_different_fields_commute_witness :
  exists h' : mem,
    (run UDP_SetSourcePort dns_view 4660; UDP_SetChecksum dns_view 54960)
      dns_store = Ret tt h' /\
    (run UDP_SetChecksum dns_view 54960; UDP_SetSourcePort dns_view 4660)
      dns_store = Ret tt h'.
Proof.
  apply (mutators_of_different_fields_commute dns_view 4660 54960 dns_store
           udpSrcPort UDP_SetSourcePort udpChecksum UDP_SetChecksum
           dns_view_full in_mutators_SetSourcePort in_mutators_SetChecksum).
  vm_compute. discriminate.
Defined.

Lemma mutator_twice_is_second_call_witness :
  (run UDP_SetLength dns_view 24; UDP_SetLength dns_view 16) dns_store
  = UDP_SetLength dns_view 16 dns_store.
Proof.
  exact (mutator_twice_is_second_call dns_view 24 16 dns_store
           udpLength UDP_SetLength dns_view_full in_mutators_SetLength).
Defined.

Lemma Encode_twice_is_second_call_witness :
  (run UDP_Encode dns_view example_fields; UDP_Encode dns_view dns_fields)
    dns_store
  = UDP_Encode dns_view dns_fields dns_store.
Proof.
  exact (Encode_twice_is_second_call dns_view example_fields dns_fields
           dns_store dns_view_full).
Defined.

Lemma Encode_frame_witness :
  exists h' : mem,
    UDP_Encode dns_view example_fields dns_store = Ret tt h' /\
    same_outside_header dns_view dns_store h' /\
    contents h' (payload_of dns_view)
    = contents dns_store (payload_of dns_view).
Proof.
  exact (Encode_frame dns_view example_fields dns_store dns_view_full).
Defined.

Lemma Encode_of_stored_fields_is_identity_witness :
  UDP_Encode dns_view dns_fields dns_store = Ret tt dns_store.
Proof.
  exact (Encode_of_stored_fields_is_identity dns_view dns_store
           dns_view_valid dns_view_full).
Defined.

Lemma Encode_on_undersized_region_writes_prefix_witness :
  UDP_Encode short_view example_fields short_store
  = Panic (IndexOutOfRange 1 1) [x12; x34; x00; x35; x00; x10; x00].
Proof.
  exact (Encode_on_undersized_region_writes_prefix short_view example_fields
           short_store short_view_short).
Defined.

Lemma IsChecksumValid_on_undersized_region_panics_witness :
  UDP_IsChecksumValid (list byte) InternetChecksum InternetPseudoHeader
    ref_IPv4ProtocolNumber short_view addr_a addr_b ref_IPv4ProtocolNumber
    dns_payload short_store
  = Panic (IndexOutOfRange 1 1) short_store.
Proof.
  exact (IsChecksumValid_on_undersized_region_panics (list byte)
           InternetChecksum InternetPseudoHeader ref_IPv4ProtocolNumber
           short_view addr_a addr_b ref_IPv4ProtocolNumber dns_payload
           short_store short_view_short).
Defined.

Lemma IsChecksumValid_reads_header_and_spans_witness :
  exists r : bool,
    UDP_IsChecksumValid (list byte) InternetChecksum InternetPseudoHeader
      ref_IPv4ProtocolNumber dns_view addr_a addr_b ref_IPv6ProtocolNumber
      dns_payload dns_store
    = Ret r dns_store /\
    UDP_IsChecksumValid (list byte) InternetChecksum InternetPseudoHeader
      ref_IPv4ProtocolNumber dns_view addr_a addr_b ref_IPv6ProtocolNumber
      dns_payload dns_store_other_prefix
    = Ret r dns_store_other_prefix.
Proof.
  apply (IsChecksumValid_reads_header_and_spans (list byte) InternetChecksum
           InternetPseudoHeader ref_IPv4ProtocolNumber dns_view addr_a addr_b
           ref_IPv6ProtocolNumber dns_payload dns_store
           dns_store_other_prefix dns_view_valid other_prefix_valid
           dns_view_full).
  - intros i Hi. do 8 (destruct i as [|i]; [reflexivity|]). lia.
  - repeat constructor.
Defined.

Lemma CalculateChecksum_bounded_by_capacity_witness :
  UDP_CalculateChecksum InternetChecksum roomy_view 0 roomy_store
  = Ret (InternetChecksum roomy_store 0) roomy_store.
Proof.
  apply (CalculateChecksum_bounded_by_capacity InternetChecksum roomy_view 0
           roomy_store).
  vm_compute. lia.
Defined.
